(** * RegExpConstructor: the legacy match cache of JavaScriptCore

    A shallow embedding of
    [Source/JavaScriptCore/runtime/RegExpConstructor.h]: the two
    [performMatch] overloads, [recordMatch], the inline accessors of the
    constructor and the predicate [isRegExp].

    The constructor object is a record of its three data members; every
    member function takes the object and returns the updated one.  The
    matching engine ([RegExp::match]) and the host object system
    ([JSValue], [JSObject]) live in other headers: the engine is a set
    of Section variables and the host a record of operations, so that
    every statement holds for all of them.  The cached result and the
    accessors defined in [RegExpConstructor.cpp] follow the
    specification, and say so. *)

From Stdlib Require Import ZArith List String Ascii Bool Lia.
Import ListNotations.

Local Open Scope Z_scope.
Local Open Scope string_scope.

Set Implicit Arguments.

(* ------------------------------------------------------------------ *)
(** ** Machine integers *)

(** [int] is 32 bits wide and signed; [size_t] is 64 bits wide and
    unsigned. *)
Definition is_int (z : Z) : Prop := - 2 ^ 31 <= z < 2 ^ 31.

(** The implicit conversion [int -> size_t] (as in [size_t end =
    m_ovector[1]] and in the arguments of [MatchResult(position, end)]):
    reduction modulo [2^64]. *)
Definition size_t_of_int (z : Z) : Z := z mod 2 ^ 64.

(* ------------------------------------------------------------------ *)
(** ** Strings *)

(** [WTF::String] and the contents of a [JSString] are Rocq strings;
    [slice s a b] is the text [s[a : b]]. *)
Definition WTF_String : Type := string.
Definition JSString : Type := string.

Definition slice (s : string) (a b : Z) : string :=
  substring (Z.to_nat a) (Z.to_nat (b - a)) s.

Definition strlen (s : string) : Z := Z.of_nat (String.length s).

(* ------------------------------------------------------------------ *)
(** ** MatchResult *)

(** Modelled from the spec: [MatchResult.h] is not part of the sources at
    hand.  A match result is a success flag with the span [[start, end_)]
    of the match; a failed result carries no offsets. *)
Record MatchResult : Type := mkMatchResult
  { matched : bool;   (* [explicit operator bool()] *)
    start : Z;
    end_ : Z }.

(** [MatchResult::failed()]. *)
Definition MatchResult_failed : MatchResult :=
  {| matched := false; start := 0; end_ := 0 |}.

(** The constructor [MatchResult(size_t start, size_t end)] used by
    [performMatch]: a successful result with that span. *)
Definition MatchResult_span (s e : Z) : MatchResult :=
  {| matched := true; start := s; end_ := e |}.

(* ------------------------------------------------------------------ *)
(** ** Pointers into the capture buffer *)

(** The values an [int*] can take, as far as [performMatch] is
    concerned: the address of the storage of the constructor's
    [m_ovector] ([m_ovector.data()]), or something else. *)
Inductive IntPtr : Type :=
| m_ovector_data : IntPtr
| other_ptr : nat -> IntPtr.

(** Bounds-checked element access of a [Vector<int>]. *)
Definition Vector_at (v : list Z) (i : nat) : option Z := nth_error v i.

(** A call either returns a value or stops on an out-of-range element
    access. *)
Inductive Outcome (A : Type) : Type :=
| Returned : A -> Outcome A
| Aborted : Outcome A.
Arguments Aborted {A}.

(* ------------------------------------------------------------------ *)
(** ** The constructor object *)

Section Constructor.

(** The compiled regular expression ([RegExp]) is opaque. *)
Variable RegExp : Type.

(** Modelled from the spec: [RegExpCachedResult.h] is not part of the
    sources at hand.  The cached result holds the last successful
    match, the subject it was found in, the regex used, the capture
    offsets of that match, and an input string set independently of
    matching.  [subject] and [regex] are [None] until a match has been
    recorded.  [offsets] is flat, like [m_ovector]: group [n] owns
    entries [2n] and [2n+1]. *)
Record RegExpCachedResult : Type := mkCachedResult
  { lastMatch : MatchResult;
    subject : option JSString;
    regex : option RegExp;
    offsets : list Z;
    explicitInput : option JSString }.

(** Modelled from the spec: the cache as it is created with its
    constructor object, before any match was recorded. *)
Definition RegExpCachedResult_empty : RegExpCachedResult :=
  {| lastMatch := MatchResult_failed;
     subject := None;
     regex := None;
     offsets := [];
     explicitInput := None |}.

(** The data members of [class RegExpConstructor]. *)
Record RegExpConstructor : Type := mkConstructor
  { m_cachedResult : RegExpCachedResult;
    m_multiline : bool;
    m_ovector : list Z }.

(** Modelled from the spec: the constructor's constructor is defined in
    [RegExpConstructor.cpp]; the object starts with an empty cache. *)
Definition RegExpConstructor_create : RegExpConstructor :=
  {| m_cachedResult := RegExpCachedResult_empty;
     m_multiline := false;
     m_ovector := [] |}.

(** Modelled from the spec: the capture offsets that the cached result
    holds for a recorded match.  [record] is handed the regex, the
    subject and the result, and no offsets; the cached result keeps the
    regex and the subject and derives its views from them on demand.
    What the derivation yields is the engine's business, like the match
    itself: a parameter. *)
Variable RegExp_captures : RegExp -> JSString -> MatchResult -> list Z.

(** Modelled from the spec: [RegExpCachedResult::record] is not part of
    the sources at hand.  It replaces the snapshot of the last match:
    the match span, the subject and regex references, and with them the
    capture offsets, which are those of the match it is handed.  It is
    a function of the arguments the source passes: the owning
    constructor is passed too, but its buffer is private to it and is
    not read.  The explicit input is set independently of matching and
    stays what it was. *)
Definition RegExpCachedResult_record (c : RegExpCachedResult)
    (regExp : RegExp) (string : JSString) (result : MatchResult)
  : RegExpCachedResult :=
  {| lastMatch := result;
     subject := Some string;
     regex := Some regExp;
     offsets := RegExp_captures regExp string result;
     explicitInput := explicitInput c |}.

(** Modelled from the spec: [RegExpCachedResult::setInput] updates only
    the explicit-input reference. *)
Definition RegExpCachedResult_setInput (c : RegExpCachedResult)
    (string : JSString) : RegExpCachedResult :=
  {| lastMatch := lastMatch c;
     subject := subject c;
     regex := regex c;
     offsets := offsets c;
     explicitInput := Some string |}.

(** Modelled from the spec: [RegExpCachedResult::input] returns the
    explicit input if set, else the last matched subject, else the
    empty string. *)
Definition RegExpCachedResult_input (c : RegExpCachedResult) : string :=
  match explicitInput c with
  | Some s => s
  | None => match subject c with Some s => s | None => "" end
  end.

(** [m_cachedResult.record(vm, this, regExp, string, result)]. *)
Definition record_into (ctor : RegExpConstructor) (regExp : RegExp)
    (string : JSString) (result : MatchResult) : RegExpConstructor :=
  {| m_cachedResult :=
       RegExpCachedResult_record (m_cachedResult ctor) regExp string result;
     m_multiline := m_multiline ctor;
     m_ovector := m_ovector ctor |}.

(** [setMultiline] and [multiline]. *)
Definition setMultiline (ctor : RegExpConstructor) (multiline : bool)
  : RegExpConstructor :=
  {| m_cachedResult := m_cachedResult ctor;
     m_multiline := multiline;
     m_ovector := m_ovector ctor |}.

Definition multiline (ctor : RegExpConstructor) : bool := m_multiline ctor.

(** [setInput] and [input]. *)
Definition setInput (ctor : RegExpConstructor) (string : JSString)
  : RegExpConstructor :=
  {| m_cachedResult := RegExpCachedResult_setInput (m_cachedResult ctor) string;
     m_multiline := m_multiline ctor;
     m_ovector := m_ovector ctor |}.

Definition input (ctor : RegExpConstructor) : string :=
  RegExpCachedResult_input (m_cachedResult ctor).

(* ---------------------------------------------------------------- *)
(** *** The accessors defined in [RegExpConstructor.cpp] *)

(** Modelled from the spec: the number of capture groups of the
    recorded match; the offsets hold one pair for the whole match
    (index 0) and one per group (indices 1..N). *)
Definition numGroups (c : RegExpCachedResult) : nat :=
  (List.length (offsets c) / 2 - 1)%nat.

(** Modelled from the spec: the offset pair of group [n]; a group
    without a pair reads as the sentinel. *)
Definition groupStart (c : RegExpCachedResult) (n : nat) : Z :=
  nth (2 * n) (offsets c) (-1).

Definition groupEnd (c : RegExpCachedResult) (n : nat) : Z :=
  nth (2 * n + 1) (offsets c) (-1).

(** Modelled from the spec: a group that did not participate has both
    offsets equal to the sentinel [-1]. *)
Definition participated (c : RegExpCachedResult) (n : nat) : bool :=
  negb ((groupStart c n =? -1)%Z && (groupEnd c n =? -1)%Z).

(** Modelled from the spec: [lastMatch] is
    [subject[lastMatch.start : lastMatch.end]], the empty string for an
    empty cache. *)
Definition lastMatchText (ctor : RegExpConstructor) : string :=
  let c := m_cachedResult ctor in
  match subject c with
  | Some s => slice s (start (lastMatch c)) (end_ (lastMatch c))
  | None => ""
  end.

(** Modelled from the spec: [getBackref(0)] is [lastMatch]; for
    [n >= 1], [getBackref(n)] is
    [subject[offsets[n].start : offsets[n].end]] if group [n] exists
    and participated, else the empty string. *)
Definition getBackref (ctor : RegExpConstructor) (n : nat) : string :=
  let c := m_cachedResult ctor in
  match n with
  | O => lastMatchText ctor
  | S _ =>
      match subject c with
      | Some s =>
          if (n <=? numGroups c)%nat && participated c n
          then slice s (groupStart c n) (groupEnd c n)
          else ""
      | None => ""
      end
  end.

(** Modelled from the spec: [getLastParen] scans the capture groups
    from the highest index down to 1 and returns the first one that
    participated, the empty string if none did. *)
Fixpoint scanLastParen (ctor : RegExpConstructor) (i : nat) : string :=
  match i with
  | O => ""
  | S j =>
      if participated (m_cachedResult ctor) i
      then getBackref ctor i
      else scanLastParen ctor j
  end.

Definition getLastParen (ctor : RegExpConstructor) : string :=
  scanLastParen ctor (numGroups (m_cachedResult ctor)).

(** Modelled from the spec: [getLeftContext] is
    [subject[0 : lastMatch.start]]. *)
Definition getLeftContext (ctor : RegExpConstructor) : string :=
  let c := m_cachedResult ctor in
  match subject c with
  | Some s => slice s 0 (start (lastMatch c))
  | None => ""
  end.

(** Modelled from the spec: [getRightContext] is
    [subject[lastMatch.end : end of subject]]. *)
Definition getRightContext (ctor : RegExpConstructor) : string :=
  let c := m_cachedResult ctor in
  match subject c with
  | Some s => slice s (end_ (lastMatch c)) (strlen s)
  | None => ""
  end.

(* ---------------------------------------------------------------- *)
(** *** The match dispatcher *)

(** The matching engine, [RegExp::match], in its two overloads.  The
    first fills the vector it is given by reference and returns the
    position of the match, or [-1]; the second returns a
    [MatchResult]. *)
Variable RegExp_match_ovector :
  RegExp -> WTF_String -> Z -> list Z -> Z * list Z.
Variable RegExp_match : RegExp -> WTF_String -> Z -> MatchResult.

(** [performMatch(vm, regExp, string, input, startOffset, ovector)].
    [ovector] is [None] for a null pointer, and [Some p] for a pointer
    to a variable that holds [p]; the third component of the result is
    that variable after the call.  The three [ASSERT]s on [m_ovector]
    are compiled out of release builds; reading [m_ovector[1]] is
    bounds-checked. *)
Definition performMatch_ovector (ctor : RegExpConstructor)
    (regExp : RegExp) (string : JSString) (input : WTF_String)
    (startOffset : Z) (ovector : option IntPtr)
  : Outcome MatchResult * RegExpConstructor * option IntPtr :=
  let '(position, filled) :=
    RegExp_match_ovector regExp input startOffset (m_ovector ctor) in
  let ctor1 :=
    {| m_cachedResult := m_cachedResult ctor;
       m_multiline := m_multiline ctor;
       m_ovector := filled |} in
  let ovector1 :=
    match ovector with
    | Some _ => Some m_ovector_data
    | None => None
    end in
  if (position =? -1)%Z then
    (Returned MatchResult_failed, ctor1, ovector1)
  else
    match Vector_at (m_ovector ctor1) 1 with
    | None => (Aborted, ctor1, ovector1)
    | Some e =>
        let end' := size_t_of_int e in
        let result := MatchResult_span (size_t_of_int position) end' in
        (Returned result, record_into ctor1 regExp string result, ovector1)
    end.

(** [performMatch(vm, regExp, string, input, startOffset)]. *)
Definition performMatch (ctor : RegExpConstructor)
    (regExp : RegExp) (string : JSString) (input : WTF_String)
    (startOffset : Z) : MatchResult * RegExpConstructor :=
  let result := RegExp_match regExp input startOffset in
  if matched result
  then (result, record_into ctor regExp string result)
  else (result, ctor).

(** [recordMatch(vm, regExp, string, result)].  The [ASSERT(result)] is
    compiled out of release builds: the result is recorded as given. *)
Definition recordMatch (ctor : RegExpConstructor) (regExp : RegExp)
    (string : JSString) (result : MatchResult) : RegExpConstructor :=
  record_into ctor regExp string result.

(** What a pointer received through [ovector] designates. *)
Definition deref (ctor : RegExpConstructor) (p : IntPtr) : option (list Z) :=
  match p with
  | m_ovector_data => Some (m_ovector ctor)
  | other_ptr _ => None
  end.

End Constructor.

Arguments RegExpCachedResult_empty : clear implicits.
Arguments RegExpConstructor_create : clear implicits.

(* ------------------------------------------------------------------ *)
(** ** Both overloads of [performMatch] at once *)

(** The two overloads of [performMatch] differ in whether the caller sees
    the capture offsets. *)
Inductive Variant : Type :=
| Plain : Variant
| OffsetsVisible : option IntPtr -> Variant.

Section Dispatch.

Variable RegExp : Type.
Variable RegExp_captures : RegExp -> JSString -> MatchResult -> list Z.
Variable RegExp_match_ovector :
  RegExp -> WTF_String -> Z -> list Z -> Z * list Z.
Variable RegExp_match : RegExp -> WTF_String -> Z -> MatchResult.

(** The engine reports no match: position [-1] from the overload that
    fills the vector, a result that tests false from the other one. *)
Definition noMatch (v : Variant) (ctor : RegExpConstructor RegExp)
    (regExp : RegExp) (input : WTF_String) (startOffset : Z) : bool :=
  match v with
  | Plain => negb (matched (RegExp_match regExp input startOffset))
  | OffsetsVisible _ =>
      (fst (RegExp_match_ovector regExp input startOffset (m_ovector ctor))
       =? -1)%Z
  end.


(** Either overload, as a function to an outcome and a new state. *)
Definition performMatch_via (v : Variant) (ctor : RegExpConstructor RegExp)
    (regExp : RegExp) (string : JSString) (input : WTF_String)
    (startOffset : Z) : Outcome MatchResult * RegExpConstructor RegExp :=
  match v with
  | Plain =>
      let r := performMatch RegExp_captures RegExp_match ctor regExp string input startOffset in
      (Returned (fst r), snd r)
  | OffsetsVisible ovector =>
      fst (performMatch_ovector RegExp_captures RegExp_match_ovector ctor regExp string
             input startOffset ovector)
  end.

End Dispatch.

(* ------------------------------------------------------------------ *)
(** ** What script code can observe of the cache *)

Section Observations.

Variable RegExp : Type.

(** The match-derived accessors return the same values in both
    states. *)
Definition sameMatchObservations (a b : RegExpConstructor RegExp) : Prop :=
  lastMatchText a = lastMatchText b /\
  (forall n, getBackref a n = getBackref b n) /\
  getLastParen a = getLastParen b /\
  getLeftContext a = getLeftContext b /\
  getRightContext a = getRightContext b.

(** All six accessors return the same values in both states. *)
Definition sameObservations (a b : RegExpConstructor RegExp) : Prop :=
  input a = input b /\ sameMatchObservations a b.

(** No match was ever recorded. *)
Definition cacheIsEmpty (c : RegExpCachedResult RegExp) : bool :=
  match subject c with
  | None => true
  | Some _ => false
  end.

End Observations.

(* ------------------------------------------------------------------ *)
(** ** isRegExp *)

Section IsRegExp.

Variables JSValue JSObject Exception VM : Type.

(** The operations of the host object system that [isRegExp] calls.
    [get_matchSymbol object vm] is
    [object->get(exec, vm.propertyNames->matchSymbol)]: it may run a
    getter, so it returns a new VM state, in which an exception may be
    pending.  [toBoolean] takes the [ExecState] too.
    [inherits_RegExpObject] is [object->inherits<RegExpObject>(vm)]. *)
Record Host : Type := mkHost
  { exception : VM -> option Exception;
    isObject : JSValue -> bool;
    asObject : JSValue -> JSObject;
    get_matchSymbol : JSObject -> VM -> JSValue * VM;
    isUndefined : JSValue -> bool;
    toBoolean : JSValue -> VM -> bool * VM;
    inherits_RegExpObject : JSObject -> VM -> bool }.

(** The same host with another native type check. *)
Definition withNativeCheck (host : Host)
    (inherits : JSObject -> VM -> bool) : Host :=
  {| exception := exception host;
     isObject := isObject host;
     asObject := asObject host;
     get_matchSymbol := get_matchSymbol host;
     isUndefined := isUndefined host;
     toBoolean := toBoolean host;
     inherits_RegExpObject := inherits |}.

(** [isRegExp(vm, exec, value)].  [RETURN_IF_EXCEPTION(scope, false)]
    returns [false] when an exception is pending in the VM. *)
Definition isRegExp (host : Host) (vm : VM) (value : JSValue) : bool * VM :=
  if negb (isObject host value) then (false, vm)
  else
    let object := asObject host value in
    let '(matchValue, vm1) := get_matchSymbol host object vm in
    match exception host vm1 with
    | Some _ => (false, vm1)
    | None =>
        if negb (isUndefined host matchValue)
        then toBoolean host matchValue vm1
        else (inherits_RegExpObject host object vm1, vm1)
    end.

End IsRegExp.

(* ------------------------------------------------------------------ *)
(** ** A small engine and a small host, to run the definitions *)

(** A regex that matches one literal text: the engine looks for its
    first occurrence at or after the start offset.  The overload that
    fills the vector writes the span of the match, or two sentinels when
    there is none. *)
Definition literal_match_ovector (regExp : string) (input : WTF_String)
    (startOffset : Z) (ovector : list Z) : Z * list Z :=
  match index (Z.to_nat startOffset) regExp input with
  | Some i => (Z.of_nat i, [Z.of_nat i; Z.of_nat i + strlen regExp])
  | None => (-1, [-1; -1])
  end.

(** A literal has no capture groups: the offsets the cached result holds
    for a recorded match are its span. *)
Definition literal_captures (regExp : string) (string : JSString)
    (result : MatchResult) : list Z :=
  [start result; end_ result].

Definition literal_match (regExp : string) (input : WTF_String)
    (startOffset : Z) : MatchResult :=
  match index (Z.to_nat startOffset) regExp input with
  | Some i => MatchResult_span (Z.of_nat i) (Z.of_nat i + strlen regExp)
  | None => MatchResult_failed
  end.

(** A host with primitive values and objects that carry a slot for the
    match symbol and a native type tag. *)
Inductive ToyPrimitive : Type :=
| ToyUndefined
| ToyNull
| ToyBoolean (b : bool)
| ToyNumber (z : Z)
| ToyString (s : string).

Inductive ToySlot : Type :=
| SlotAbsent
| SlotData (v : ToyPrimitive)
| SlotThrowingGetter (e : string).

Record ToyObject : Type := mkToyObject
  { matchSlot : ToySlot;
    isNativeRegExp : bool }.

Inductive ToyValue : Type :=
| ToyPrim (p : ToyPrimitive)
| ToyObj (o : ToyObject).

(** The VM state of the small host is its pending exception. *)
Definition ToyVM : Type := option string.

Definition toy_isObject (v : ToyValue) : bool :=
  match v with ToyObj _ => true | ToyPrim _ => false end.

Definition toy_asObject (v : ToyValue) : ToyObject :=
  match v with
  | ToyObj o => o
  | ToyPrim _ => mkToyObject SlotAbsent false
  end.

Definition toy_get (o : ToyObject) (vm : ToyVM) : ToyValue * ToyVM :=
  match matchSlot o with
  | SlotAbsent => (ToyPrim ToyUndefined, vm)
  | SlotData v => (ToyPrim v, vm)
  | SlotThrowingGetter e => (ToyPrim ToyUndefined, Some e)
  end.

Definition toy_isUndefined (v : ToyValue) : bool :=
  match v with ToyPrim ToyUndefined => true | _ => false end.

Definition toy_toBoolean (v : ToyValue) (vm : ToyVM) : bool * ToyVM :=
  (match v with
   | ToyPrim ToyUndefined | ToyPrim ToyNull => false
   | ToyPrim (ToyBoolean b) => b
   | ToyPrim (ToyNumber z) => negb (z =? 0)%Z
   | ToyPrim (ToyString s) => negb (s =? "")%string
   | ToyObj _ => true
   end, vm).

Definition toy_inherits (o : ToyObject) (vm : ToyVM) : bool := isNativeRegExp o.

Definition toyHost : Host ToyValue ToyObject string ToyVM :=
  {| exception := fun vm : ToyVM => vm;
     isObject := toy_isObject;
     asObject := toy_asObject;
     get_matchSymbol := toy_get;
     isUndefined := toy_isUndefined;
     toBoolean := toy_toBoolean;
     inherits_RegExpObject := toy_inherits |}.

Definition toy_isRegExp : ToyVM -> ToyValue -> bool * ToyVM :=
  isRegExp toyHost.

(** States to run the definitions on.  [afterHelloWorld] is the
    constructor after the offsets-visible [performMatch] found ["o w"] in
    ["hello world"] at [[4, 7)]. *)
Definition fresh : RegExpConstructor string := RegExpConstructor_create string.

Definition afterHelloWorld : RegExpConstructor string :=
  snd (fst (performMatch_ovector literal_captures literal_match_ovector fresh "o w"
              "hello world" "hello world" 0 (Some (other_ptr 0)))).

(** A recorded match of a regex with three capture groups in ["abcde"],
    of which groups 1 and 3 participated, as an engine that knows
    capture groups leaves it (the literal engine above knows none). *)
Definition groupsOneAndThree : RegExpConstructor string :=
  {| m_cachedResult :=
       {| lastMatch := MatchResult_span 0 5;
          subject := Some "abcde";
          regex := Some "(ab)(x)?c(de)";
          offsets := [0; 5; 0; 2; -1; -1; 3; 5];
          explicitInput := None |};
     m_multiline := false;
     m_ovector := [0; 5; 0; 2; -1; -1; 3; 5] |}.

(** The same with only group 1 participating. *)
Definition groupOneOnly : RegExpConstructor string :=
  {| m_cachedResult :=
       {| lastMatch := MatchResult_span 0 3;
          subject := Some "abcde";
          regex := Some "(ab)(x)?c(y)?";
          offsets := [0; 3; 0; 2; -1; -1; -1; -1];
          explicitInput := None |};
     m_multiline := false;
     m_ovector := [0; 3; 0; 2; -1; -1; -1; -1] |}.

(** Objects of the small host: a native regexp that opts out, a plain
    object that opts in, a native regexp without the property, and a
    native regexp whose getter throws. *)
Definition optedOutRegExp : ToyValue :=
  ToyObj (mkToyObject (SlotData (ToyBoolean false)) true).

Definition optedInObject : ToyValue :=
  ToyObj (mkToyObject (SlotData (ToyBoolean true)) false).

Definition plainRegExp : ToyValue :=
  ToyObj (mkToyObject SlotAbsent true).

Definition throwingRegExp : ToyValue :=
  ToyObj (mkToyObject (SlotThrowingGetter "getter threw") true).

(* ------------------------------------------------------------------ *)
(** ** Runs of match attempts *)

Section Attempts.

Variable RegExp : Type.
Variable RegExp_captures : RegExp -> JSString -> MatchResult -> list Z.
Variable RegExp_match_ovector :
  RegExp -> WTF_String -> Z -> list Z -> Z * list Z.
Variable RegExp_match : RegExp -> WTF_String -> Z -> MatchResult.

(** The arguments of one call of [performMatch], with the overload
    called. *)
Record Attempt : Type := mkAttempt
  { attemptVariant : Variant;
    attemptRegExp : RegExp;
    attemptString : JSString;
    attemptInput : WTF_String;
    attemptStartOffset : Z }.

Definition attempt (a : Attempt) (ctor : RegExpConstructor RegExp)
  : Outcome MatchResult * RegExpConstructor RegExp :=
  performMatch_via RegExp_captures RegExp_match_ovector RegExp_match (attemptVariant a) ctor
    (attemptRegExp a) (attemptString a) (attemptInput a)
    (attemptStartOffset a).

(** The calls of a list made one after the other on the same
    constructor; the run stops at a call that does not return. *)
Fixpoint performMatches (ctor : RegExpConstructor RegExp)
    (calls : list Attempt) : Outcome (RegExpConstructor RegExp) :=
  match calls with
  | [] => Returned ctor
  | a :: rest =>
      match fst (attempt a ctor) with
      | Returned _ => performMatches (snd (attempt a ctor)) rest
      | Aborted => Aborted
      end
  end.

(** The engine reports no match at every call of the run. *)
Fixpoint allNoMatch (ctor : RegExpConstructor RegExp)
    (calls : list Attempt) : bool :=
  match calls with
  | [] => true
  | a :: rest =>
      noMatch RegExp_match_ovector RegExp_match (attemptVariant a) ctor
        (attemptRegExp a) (attemptInput a) (attemptStartOffset a)
      && allNoMatch (snd (attempt a ctor)) rest
  end.

(** The two overloads of the engine say the same about one search,
    given the buffer the first one is handed: no match from both, or a
    match whose span is the position returned and entry 1 of the vector
    filled. *)
Definition enginesAgree (regExp : RegExp) (input : WTF_String)
    (startOffset : Z) (buffer : list Z) : Prop :=
  let position :=
    fst (RegExp_match_ovector regExp input startOffset buffer) in
  let filled :=
    snd (RegExp_match_ovector regExp input startOffset buffer) in
  if (position =? -1)%Z
  then RegExp_match regExp input startOffset = MatchResult_failed
  else exists e : Z,
      Vector_at filled 1 = Some e /\
      RegExp_match regExp input startOffset
        = MatchResult_span (size_t_of_int position) (size_t_of_int e).

End Attempts.

(** Three searches that find nothing, through both overloads. *)
Definition threeMisses : list (Attempt string) :=
  [ mkAttempt (OffsetsVisible None) "xyz" "abc" "abc" 0;
    mkAttempt Plain "world" "hello" "hello" 0;
    mkAttempt (OffsetsVisible (Some (other_ptr 1))) "o w" "hello world"
      "hello world" 5 ].

(* ================================================================== *)
(** * Properties *)

(* ------------------------------------------------------------------ *)
(** ** Slicing strings *)

Lemma substring_prefix_all (s : string) (n : nat) :
  (String.length s <= n)%nat -> substring 0 n s = s.
Proof.
  revert n; induction s as [|c s IH]; intros [|n] Hn; simpl in *;
    try reflexivity; try lia.
  f_equal. apply IH. lia.
Qed.

Lemma substring_glue (s : string) (n m k : nat) :
  substring n m s ++ substring (n + m) k s = substring n (m + k) s.
Proof.
  revert s m; induction n as [|n IHn].
  - intros s m; revert s; induction m as [|m IHm]; intros s.
    + destruct s, k; reflexivity.
    + destruct s as [|c s]; simpl.
      * destruct k; reflexivity.
      * f_equal. apply IHm.
  - intros [|c s] m; simpl.
    + destruct m, k; reflexivity.
    + apply IHn.
Qed.

Lemma slice_partition (s : string) (a b : Z) :
  0 <= a -> a <= b -> b <= strlen s ->
  slice s 0 a ++ slice s a b ++ slice s b (strlen s) = s.
Proof.
  unfold slice, strlen; intros Ha Hab Hb.
  rewrite Z.sub_0_r.
  replace (Z.to_nat b) with (Z.to_nat a + Z.to_nat (b - a))%nat by lia.
  rewrite substring_glue.
  change (Z.to_nat 0) with (0 + 0)%nat at 1.
  replace (Z.to_nat a) with (0 + Z.to_nat a)%nat at 2 by lia.
  rewrite substring_glue.
  apply substring_prefix_all. lia.
Qed.

(* ------------------------------------------------------------------ *)
(** ** Accessors read the cached result only *)

Section AccessorFacts.

Variable RegExp : Type.
Implicit Types ctor : RegExpConstructor RegExp.

Lemma scanLastParen_cache ctor ctor' (i : nat) :
  m_cachedResult ctor' = m_cachedResult ctor ->
  scanLastParen ctor' i = scanLastParen ctor i.
Proof.
  intros E; induction i as [|i IH]; simpl; [reflexivity|].
  unfold getBackref, lastMatchText in *; rewrite E, IH; reflexivity.
Qed.

Lemma same_cache_sameObservations ctor ctor' :
  m_cachedResult ctor' = m_cachedResult ctor ->
  sameObservations ctor' ctor.
Proof.
  intros E; unfold sameObservations, sameMatchObservations.
  unfold input, lastMatchText, getBackref, getLastParen,
    getLeftContext, getRightContext, lastMatchText.
  rewrite E; repeat split; auto.
  apply scanLastParen_cache; assumption.
Qed.

Lemma scanLastParen_match_state ctor ctor' (i : nat) :
  lastMatch (m_cachedResult ctor') = lastMatch (m_cachedResult ctor) ->
  subject (m_cachedResult ctor') = subject (m_cachedResult ctor) ->
  offsets (m_cachedResult ctor') = offsets (m_cachedResult ctor) ->
  scanLastParen ctor' i = scanLastParen ctor i.
Proof.
  intros El Es Eo; induction i as [|i IH]; simpl; [reflexivity|].
  unfold getBackref, participated, groupStart, groupEnd, numGroups in *.
  rewrite Es, Eo, IH; reflexivity.
Qed.

Lemma same_match_state_sameMatchObservations ctor ctor' :
  lastMatch (m_cachedResult ctor') = lastMatch (m_cachedResult ctor) ->
  subject (m_cachedResult ctor') = subject (m_cachedResult ctor) ->
  offsets (m_cachedResult ctor') = offsets (m_cachedResult ctor) ->
  sameMatchObservations ctor' ctor.
Proof.
  intros El Es Eo; unfold sameMatchObservations.
  assert (Hs := @scanLastParen_match_state ctor ctor'
                  (numGroups (m_cachedResult ctor)) El Es Eo).
  unfold getLastParen, getBackref, lastMatchText, getLeftContext,
    getRightContext, participated, groupStart, groupEnd, numGroups in *.
  rewrite El, Es, Eo; repeat split; auto.
Qed.

End AccessorFacts.

(* ------------------------------------------------------------------ *)
(** ** The match dispatcher *)

Section DispatchFacts.

Variable RegExp : Type.
Variable RegExp_captures : RegExp -> JSString -> MatchResult -> list Z.
Variable RegExp_match_ovector :
  RegExp -> WTF_String -> Z -> list Z -> Z * list Z.
Variable RegExp_match : RegExp -> WTF_String -> Z -> MatchResult.
Implicit Types ctor : RegExpConstructor RegExp.

Local Abbreviation run := (performMatch_via RegExp_captures RegExp_match_ovector RegExp_match).
Local Abbreviation fails := (noMatch RegExp_match_ovector RegExp_match).

(** C1.  When the engine reports no match, either overload of
    [performMatch] returns a result that tests false and leaves
    [m_cachedResult] as it was, so that [input], [lastMatch],
    [getBackref], [getLastParen], [getLeftContext] and
    [getRightContext] return what they returned before the call. *)
Theorem performMatch_no_match_keeps_cache
    (v : Variant) ctor (regExp : RegExp) (string : JSString)
    (input : WTF_String) (startOffset : Z) :
  fails v ctor regExp input startOffset = true ->
  exists result,
    fst (run v ctor regExp string input startOffset) = Returned result /\
    matched result = false /\
    m_cachedResult (snd (run v ctor regExp string input startOffset))
      = m_cachedResult ctor /\
    sameObservations (snd (run v ctor regExp string input startOffset)) ctor.
Proof.
  destruct v as [|ovector]; simpl; intros Hfail.
  - unfold performMatch.
    destruct (matched (RegExp_match regExp input startOffset)) eqn:Hm;
      [discriminate|].
    exists (RegExp_match regExp input startOffset); simpl.
    repeat split; auto; apply same_cache_sameObservations; reflexivity.
  - unfold performMatch_ovector.
    destruct (RegExp_match_ovector regExp input startOffset (m_ovector ctor))
      as [position filled]; simpl in *.
    rewrite Hfail; simpl.
    exists MatchResult_failed.
    repeat split; auto; apply same_cache_sameObservations; reflexivity.
Qed.


(** C3, as the code has it.  After a successful call of the
    offsets-visible [performMatch] whose engine result is what the
    code asserts (entry 0 of the filled vector is the position, entry
    1 is not before it) and is a non-negative [int] position, entries
    0 and 1 of the buffer [m_ovector] are the start and the end of the
    cached [MatchResult].  The plain [performMatch] and [recordMatch]
    record a result without writing the buffer. *)
Theorem performMatch_ovector_entry0_is_lastMatch
    ctor (regExp : RegExp) (string : JSString) (input : WTF_String)
    (startOffset : Z) (ovector : option IntPtr)
    (position e : Z) (filled : list Z) :
  RegExp_match_ovector regExp input startOffset (m_ovector ctor)
    = (position, filled) ->
  position <> -1 ->
  0 <= position ->
  Vector_at filled 0 = Some position ->
  Vector_at filled 1 = Some e ->
  position <= e ->
  is_int e ->
  let r := performMatch_ovector RegExp_captures RegExp_match_ovector ctor regExp string
             input startOffset ovector in
  let ctor' := snd (fst r) in
  (fst (fst r) = Returned (lastMatch (m_cachedResult ctor')) /\
   matched (lastMatch (m_cachedResult ctor')) = true /\
   Vector_at (m_ovector ctor') 0
     = Some (start (lastMatch (m_cachedResult ctor'))) /\
   Vector_at (m_ovector ctor') 1
     = Some (end_ (lastMatch (m_cachedResult ctor')))) /\
  (forall result,
      m_ovector (recordMatch RegExp_captures ctor regExp string result) = m_ovector ctor) /\
  m_ovector (snd (performMatch RegExp_captures RegExp_match ctor regExp string input
                    startOffset)) = m_ovector ctor.
Proof.
  intros Heng Hpos Hnonneg H0 H1 Hle [Hlo Hhi]; simpl.
  split; [|split].
  - unfold performMatch_ovector; rewrite Heng.
    apply Z.eqb_neq in Hpos; rewrite Hpos.
    cbn [m_ovector]; rewrite H1.
    cbn [fst snd record_into m_cachedResult m_ovector
           RegExpCachedResult_record lastMatch offsets MatchResult_span
           matched start end_].
    unfold size_t_of_int.
    rewrite !Z.mod_small by lia.
    repeat split; assumption.
  - reflexivity.
  - unfold performMatch.
    destruct (matched (RegExp_match regExp input startOffset)); reflexivity.
Qed.

(** C10.  Given a non-null [ovector], the offsets-visible
    [performMatch] stores the address of the constructor's buffer
    through it on every call, whatever the engine reported; what the
    caller reads through it is the vector the engine filled.  When the
    engine reported no match the call returns a failed result with
    [m_cachedResult] as it was, and the pointer has been stored all
    the same. *)
Theorem performMatch_ovector_always_exposes_buffer
    ctor (regExp : RegExp) (string : JSString) (input : WTF_String)
    (startOffset : Z) (p : IntPtr) :
  let r := performMatch_ovector RegExp_captures RegExp_match_ovector ctor regExp string
             input startOffset (Some p) in
  let engine :=
    RegExp_match_ovector regExp input startOffset (m_ovector ctor) in
  snd r = Some m_ovector_data /\
  deref (snd (fst r)) m_ovector_data = Some (snd engine) /\
  (fst engine = -1 ->
   fst (fst r) = Returned MatchResult_failed /\
   m_cachedResult (snd (fst r)) = m_cachedResult ctor /\
   snd r = Some m_ovector_data).
Proof.
  unfold performMatch_ovector; cbv zeta.
  destruct (RegExp_match_ovector regExp input startOffset (m_ovector ctor))
    as [position filled].
  destruct (position =? -1)%Z eqn:Hpos.
  - repeat split; reflexivity.
  - apply Z.eqb_neq in Hpos.
    cbn [m_ovector fst snd].
    destruct (Vector_at filled 1);
      (split; [reflexivity | split; [reflexivity | intros; contradiction]]).
Qed.

End DispatchFacts.

(* ------------------------------------------------------------------ *)
(** ** The accessors *)

Section AccessorProperties.

Variable RegExp : Type.
Variable RegExp_captures : RegExp -> JSString -> MatchResult -> list Z.
Implicit Types ctor : RegExpConstructor RegExp.

(** Every entry point records through [record_into], after which the
    cache holds the subject and the result it was given. *)
Lemma record_into_state ctor (regExp : RegExp) (string : JSString)
    (result : MatchResult) :
  subject (m_cachedResult (record_into RegExp_captures ctor regExp string result))
    = Some string /\
  lastMatch (m_cachedResult (record_into RegExp_captures ctor regExp string result))
    = result.
Proof. split; reflexivity. Qed.

(** C4.  In a state that holds a recorded successful match with span
    [[s, e)] within the subject, the left context, the matched text
    and the right context concatenate to the subject. *)
Theorem contexts_partition_subject ctor (subj : JSString) :
  subject (m_cachedResult ctor) = Some subj ->
  matched (lastMatch (m_cachedResult ctor)) = true ->
  0 <= start (lastMatch (m_cachedResult ctor)) ->
  start (lastMatch (m_cachedResult ctor))
    <= end_ (lastMatch (m_cachedResult ctor)) ->
  end_ (lastMatch (m_cachedResult ctor)) <= strlen subj ->
  getLeftContext ctor ++ lastMatchText ctor ++ getRightContext ctor = subj.
Proof.
  intros HS _ Hs Hse He.
  unfold getLeftContext, lastMatchText, getRightContext; rewrite HS.
  apply slice_partition; assumption.
Qed.

Lemma getBackref_empty_cache ctor (n : nat) :
  cacheIsEmpty (m_cachedResult ctor) = true -> getBackref ctor n = "".
Proof.
  unfold getBackref, lastMatchText, cacheIsEmpty.
  destruct (subject (m_cachedResult ctor)); [discriminate|].
  destruct n; reflexivity.
Qed.

Lemma scanLastParen_empty_cache ctor (i : nat) :
  cacheIsEmpty (m_cachedResult ctor) = true -> scanLastParen ctor i = "".
Proof.
  intros Hempty; induction i as [|i IH]; [reflexivity|].
  cbn [scanLastParen].
  destruct (participated (m_cachedResult ctor) (S i)); [|exact IH].
  apply getBackref_empty_cache; assumption.
Qed.

(** C5.  [getBackref] is a total function to strings: no call of it
    fails.  It returns the empty string when [n] exceeds the number of
    capture groups of the recorded match, when group [n >= 1] did not
    participate, and, for every [n], when no match was recorded. *)
Theorem getBackref_defaults_to_empty ctor (n : nat) :
  (numGroups (m_cachedResult ctor) < n)%nat \/
  ((1 <= n)%nat /\ participated (m_cachedResult ctor) n = false) \/
  cacheIsEmpty (m_cachedResult ctor) = true ->
  getBackref ctor n = "".
Proof.
  intros [Hn | [[Hn Hp] | He]].
  - unfold getBackref.
    destruct n as [|n]; [lia|].
    destruct (subject (m_cachedResult ctor)); [|reflexivity].
    apply Nat.leb_gt in Hn; rewrite Hn; reflexivity.
  - unfold getBackref.
    destruct n as [|n]; [lia|].
    destruct (subject (m_cachedResult ctor)); [|reflexivity].
    rewrite Hp, andb_false_r; reflexivity.
  - apply getBackref_empty_cache; assumption.
Qed.

Lemma scanLastParen_spec ctor (i : nat) :
  (forall k : nat,
      (1 <= k <= i)%nat ->
      participated (m_cachedResult ctor) k = true ->
      (forall j : nat, (k < j <= i)%nat ->
                       participated (m_cachedResult ctor) j = false) ->
      scanLastParen ctor i = getBackref ctor k) /\
  ((forall j : nat, (1 <= j <= i)%nat ->
                    participated (m_cachedResult ctor) j = false) ->
   scanLastParen ctor i = "").
Proof.
  induction i as [|i [IHfound IHnone]]; split.
  - intros k Hk; lia.
  - reflexivity.
  - intros k Hk Hpk Hafter.
    cbn [scanLastParen].
    destruct (participated (m_cachedResult ctor) (S i)) eqn:Hp.
    + destruct (Nat.eq_dec k (S i)) as [->|Hne]; [reflexivity|].
      rewrite (Hafter (S i)) in Hp by lia; discriminate.
    + destruct (Nat.eq_dec k (S i)) as [->|Hne]; [congruence|].
      apply IHfound; [lia | assumption |].
      intros j Hj; apply Hafter; lia.
  - intros Hnone.
    cbn [scanLastParen].
    rewrite (Hnone (S i)) by lia.
    apply IHnone; intros j Hj; apply Hnone; lia.
Qed.

(** C6.  [getLastParen] returns the text of the highest-indexed capture
    group that participated, which is the slice of the subject at that
    group's offsets; it returns the empty string when no group
    participated and when no match was recorded. *)
Theorem getLastParen_highest_participating ctor :
  (forall k : nat,
      (1 <= k <= numGroups (m_cachedResult ctor))%nat ->
      participated (m_cachedResult ctor) k = true ->
      (forall j : nat,
          (k < j <= numGroups (m_cachedResult ctor))%nat ->
          participated (m_cachedResult ctor) j = false) ->
      getLastParen ctor = getBackref ctor k /\
      forall subj : JSString,
        subject (m_cachedResult ctor) = Some subj ->
        getLastParen ctor
          = slice subj (groupStart (m_cachedResult ctor) k)
              (groupEnd (m_cachedResult ctor) k)) /\
  ((forall j : nat,
       (1 <= j <= numGroups (m_cachedResult ctor))%nat ->
       participated (m_cachedResult ctor) j = false) ->
   getLastParen ctor = "") /\
  (cacheIsEmpty (m_cachedResult ctor) = true -> getLastParen ctor = "").
Proof.
  unfold getLastParen.
  destruct (scanLastParen_spec ctor (numGroups (m_cachedResult ctor)))
    as [Hfound Hnone].
  split; [|split].
  - intros k Hk Hpk Hafter.
    rewrite (Hfound k Hk Hpk Hafter).
    split; [reflexivity|].
    intros subj Hsubj.
    unfold getBackref; destruct k as [|k]; [lia|].
    rewrite Hsubj, Hpk.
    replace (S k <=? numGroups (m_cachedResult ctor))%nat with true
      by (symmetry; apply Nat.leb_le; lia).
    reflexivity.
  - exact Hnone.
  - intros Hempty; apply scanLastParen_empty_cache; assumption.
Qed.

End AccessorProperties.

Section SetInputProperties.

Variable RegExp : Type.
Implicit Types ctor : RegExpConstructor RegExp.

(** C9.  [setInput(s)] makes [input()] return [s] and changes nothing
    else: the cached [MatchResult], the recorded offsets, the subject
    and regex references, the buffer and the multiline flag are what
    they were, and [lastMatch], [getBackref], [getLastParen],
    [getLeftContext] and [getRightContext] return what they returned
    before. *)
Theorem setInput_changes_only_input ctor (s : JSString) :
  input (setInput ctor s) = s /\
  lastMatch (m_cachedResult (setInput ctor s))
    = lastMatch (m_cachedResult ctor) /\
  offsets (m_cachedResult (setInput ctor s))
    = offsets (m_cachedResult ctor) /\
  subject (m_cachedResult (setInput ctor s))
    = subject (m_cachedResult ctor) /\
  regex (m_cachedResult (setInput ctor s)) = regex (m_cachedResult ctor) /\
  m_ovector (setInput ctor s) = m_ovector ctor /\
  multiline (setInput ctor s) = multiline ctor /\
  sameMatchObservations (setInput ctor s) ctor.
Proof.
  repeat (split; [reflexivity|]).
  apply same_match_state_sameMatchObservations; reflexivity.
Qed.

End SetInputProperties.

(* ------------------------------------------------------------------ *)
(** ** isRegExp *)

Section IsRegExpProperties.

Variables JSValue JSObject Exception VM : Type.
Variable host : Host JSValue JSObject Exception VM.

(** C7.  A value that is not an object is not a regexp.  For an
    object whose lookup of the match symbol completes without an
    exception: a value other than [undefined] decides, by its
    conversion to boolean, whatever the native type of the object (the
    result is the same with any other native type check); the value
    [undefined] (which is also what an absent property reads as) leaves
    the answer to the native type check. *)
Theorem isRegExp_override_then_native (vm : VM) (value : JSValue) :
  (isObject host value = false -> isRegExp host vm value = (false, vm)) /\
  (isObject host value = true ->
   forall (matchValue : JSValue) (vm1 : VM),
     get_matchSymbol host (asObject host value) vm = (matchValue, vm1) ->
     exception host vm1 = None ->
     (isUndefined host matchValue = false ->
      isRegExp host vm value = toBoolean host matchValue vm1 /\
      forall inherits' : JSObject -> VM -> bool,
        isRegExp (withNativeCheck host inherits') vm value
          = isRegExp host vm value) /\
     (isUndefined host matchValue = true ->
      isRegExp host vm value
        = (inherits_RegExpObject host (asObject host value) vm1, vm1))).
Proof.
  unfold isRegExp; cbn [withNativeCheck exception isObject asObject
    get_matchSymbol isUndefined toBoolean inherits_RegExpObject]; split.
  - intros ->; reflexivity.
  - intros -> matchValue vm1 -> ->; simpl; split.
    + intros ->; simpl; split; reflexivity.
    + intros ->; reflexivity.
Qed.

(** C8.  For an object, an exception raised by the lookup of the match
    symbol, or by the conversion of the value found to boolean, is
    still pending when [isRegExp] returns, and the native type check
    has no part in the result: [isRegExp] returns the same with any
    other native type check.  After a lookup that raised, the value
    returned is [false]. *)
Theorem isRegExp_propagates_exception
    (inherits' : JSObject -> VM -> bool)
    (vm : VM) (value : JSValue) (e : Exception) :
  isObject host value = true ->
  let looked := get_matchSymbol host (asObject host value) vm in
  exception host (snd looked) = Some e \/
  (exception host (snd looked) = None /\
   isUndefined host (fst looked) = false /\
   exception host (snd (toBoolean host (fst looked) (snd looked))) = Some e) ->
  exception host (snd (isRegExp host vm value)) = Some e /\
  isRegExp (withNativeCheck host inherits') vm value
    = isRegExp host vm value /\
  (exception host (snd looked) = Some e ->
   isRegExp host vm value = (false, snd looked)).
Proof.
  unfold isRegExp; cbn [withNativeCheck exception isObject asObject
    get_matchSymbol isUndefined toBoolean inherits_RegExpObject].
  intros ->; simpl.
  destruct (get_matchSymbol host (asObject host value) vm)
    as [matchValue vm1]; simpl.
  intros [Hget | (Hget & Hundef & Hbool)]; rewrite Hget.
  - repeat split; simpl; auto.
  - rewrite Hundef; simpl.
    repeat split; auto; intros; discriminate.
Qed.

End IsRegExpProperties.

(* ------------------------------------------------------------------ *)
(** ** The properties at concrete inputs *)

(** After ["o w"] was found in ["hello world"], a search for ["xyz"] in
    ["abc"] through the offsets-visible overload fails: the engine has
    overwritten the buffer, and the accessors still answer for
    ["hello world"]. *)
Lemma performMatch_no_match_keeps_cache_witness :
  noMatch literal_match_ovector literal_match (OffsetsVisible None)
    afterHelloWorld "xyz" "abc" 0 = true /\
  sameObservations
    (snd (performMatch_via literal_captures literal_match_ovector literal_match
            (OffsetsVisible None) afterHelloWorld "xyz" "abc" "abc" 0))
    afterHelloWorld /\
  m_ovector
    (snd (performMatch_via literal_captures literal_match_ovector literal_match
            (OffsetsVisible None) afterHelloWorld "xyz" "abc" "abc" 0))
    = [-1; -1].
Proof.
  split; [reflexivity|].
  split; [|reflexivity].
  destruct (@performMatch_no_match_keeps_cache string literal_captures
              literal_match_ovector
              literal_match (OffsetsVisible None) afterHelloWorld
              "xyz" "abc" "abc" 0 eq_refl) as (result & _ & _ & _ & Hobs).
  exact Hobs.
Defined.



Lemma performMatch_ovector_entry0_is_lastMatch_witness :
  literal_match_ovector "o w" "hello world" 0 (m_ovector fresh) = (4, [4; 7]) /\
  Vector_at (m_ovector afterHelloWorld) 0
    = Some (start (lastMatch (m_cachedResult afterHelloWorld))) /\
  Vector_at (m_ovector afterHelloWorld) 1
    = Some (end_ (lastMatch (m_cachedResult afterHelloWorld))).
Proof.
  split; [reflexivity|].
  destruct (@performMatch_ovector_entry0_is_lastMatch string literal_captures
              literal_match_ovector literal_match fresh "o w" "hello world"
              "hello world" 0 (Some (other_ptr 0)) 4 7 [4; 7]
              eq_refl) as ((_ & _ & H0 & H1) & _).
  - discriminate.
  - discriminate.
  - reflexivity.
  - reflexivity.
  - discriminate.
  - split; [discriminate | reflexivity].
  - split; [exact H0 | exact H1].
Defined.

(** [recordMatch] of a successful result [[1, 2)] for ["abc"], after
    ["o w"] was found in ["hello world"]: entry 0 of the buffer is still
    4, not the start of the cached result. *)
Lemma recordMatch_entry0_is_not_lastMatch :
  matched (MatchResult_span 1 2) = true /\
  lastMatch (m_cachedResult
               (recordMatch literal_captures afterHelloWorld "b" "abc"
                  (MatchResult_span 1 2)))
    = MatchResult_span 1 2 /\
  Vector_at (m_ovector
               (recordMatch literal_captures afterHelloWorld "b" "abc"
                  (MatchResult_span 1 2)))
            0 = Some 4 /\
  Vector_at (m_ovector
               (recordMatch literal_captures afterHelloWorld "b" "abc"
                  (MatchResult_span 1 2)))
            0
    <> Some (start (lastMatch (m_cachedResult
               (recordMatch literal_captures afterHelloWorld "b" "abc"
                  (MatchResult_span 1 2))))).
Proof. repeat split; try reflexivity; discriminate. Qed.

Lemma contexts_partition_subject_witness :
  subject (m_cachedResult afterHelloWorld) = Some "hello world" /\
  getLeftContext afterHelloWorld = "hell" /\
  lastMatchText afterHelloWorld = "o w" /\
  getRightContext afterHelloWorld = "orld" /\
  getLeftContext afterHelloWorld ++ lastMatchText afterHelloWorld
    ++ getRightContext afterHelloWorld = "hello world".
Proof.
  repeat (split; [reflexivity|]).
  apply (@contexts_partition_subject string afterHelloWorld "hello world");
    try reflexivity; discriminate.
Defined.

Lemma getBackref_defaults_to_empty_witness :
  participated (m_cachedResult groupsOneAndThree) 2 = false /\
  getBackref groupsOneAndThree 2 = "" /\
  getBackref groupsOneAndThree 4 = "" /\
  getBackref fresh 0 = "".
Proof.
  split; [reflexivity|].
  split; [|split].
  - apply (@getBackref_defaults_to_empty string groupsOneAndThree 2%nat).
    right; left; split; [repeat constructor | reflexivity].
  - apply (@getBackref_defaults_to_empty string groupsOneAndThree 4%nat).
    left; apply le_n.
  - apply (@getBackref_defaults_to_empty string fresh 0%nat).
    right; right; reflexivity.
Defined.

Lemma getLastParen_highest_participating_witness :
  getLastParen groupsOneAndThree = "de" /\
  getLastParen groupOneOnly = "ab" /\
  getLastParen fresh = "".
Proof.
  split; [|split].
  - destruct (@getLastParen_highest_participating string groupsOneAndThree)
      as (Hfound & _ & _).
    destruct (Hfound 3%nat) as [_ Hslice].
    + split; [repeat constructor | apply le_n].
    + reflexivity.
    + intros j [Hlo Hhi].
      exfalso; exact (Nat.lt_irrefl _ (Nat.lt_le_trans _ _ _ Hlo Hhi)).
    + exact (Hslice "abcde" eq_refl).
  - destruct (@getLastParen_highest_participating string groupOneOnly)
      as (Hfound & _ & _).
    destruct (Hfound 1%nat) as [_ Hslice].
    + split; [apply le_n | repeat constructor].
    + reflexivity.
    + intros j [Hlo Hhi].
      destruct j as [|[|[|[|j]]]]; try reflexivity.
      * inversion Hlo.
      * inversion Hlo as [|? H1]; inversion H1.
      * do 3 apply le_S_n in Hhi; inversion Hhi.
    + exact (Hslice "abcde" eq_refl).
  - destruct (@getLastParen_highest_participating string fresh) as (_ & _ & Hempty).
    exact (Hempty eq_refl).
Defined.

Lemma isRegExp_override_then_native_witness :
  toy_isRegExp None (ToyPrim (ToyString "/a/")) = (false, None) /\
  toy_isRegExp None optedOutRegExp = (false, None) /\
  toy_isRegExp None optedInObject = (true, None) /\
  toy_isRegExp None plainRegExp = (true, None).
Proof.
  pose (claim := @isRegExp_override_then_native ToyValue ToyObject string
                   ToyVM toyHost None).
  split; [|split; [|split]].
  - destruct (claim (ToyPrim (ToyString "/a/"))) as [Hprimitive _].
    exact (Hprimitive eq_refl).
  - destruct (claim optedOutRegExp) as [_ Hobject].
    destruct (Hobject eq_refl (ToyPrim (ToyBoolean false)) None
                eq_refl eq_refl) as [Hoverride _].
    destruct (Hoverride eq_refl) as [Hvalue _].
    exact Hvalue.
  - destruct (claim optedInObject) as [_ Hobject].
    destruct (Hobject eq_refl (ToyPrim (ToyBoolean true)) None
                eq_refl eq_refl) as [Hoverride _].
    destruct (Hoverride eq_refl) as [Hvalue _].
    exact Hvalue.
  - destruct (claim plainRegExp) as [_ Hobject].
    destruct (Hobject eq_refl (ToyPrim ToyUndefined) None
                eq_refl eq_refl) as [_ Hnative].
    exact (Hnative eq_refl).
Defined.

(** A native regexp whose getter for the match symbol throws: the
    exception is pending after [isRegExp], which answers the same if the
    native type check is replaced by one that says no. *)
Lemma isRegExp_propagates_exception_witness :
  isObject toyHost throwingRegExp = true /\
  snd (get_matchSymbol toyHost (asObject toyHost throwingRegExp) None)
    = Some "getter threw" /\
  snd (toy_isRegExp None throwingRegExp) = Some "getter threw" /\
  isRegExp (withNativeCheck toyHost (fun _ _ => false)) None throwingRegExp
    = toy_isRegExp None throwingRegExp.
Proof.
  split; [reflexivity|].
  split; [reflexivity|].
  destruct (@isRegExp_propagates_exception ToyValue ToyObject string ToyVM
              toyHost (fun _ _ => false) None throwingRegExp "getter threw"
              eq_refl (or_introl eq_refl)) as (Hpending & Hsame & _).
  split; [exact Hpending | exact Hsame].
Defined.

Lemma performMatch_ovector_always_exposes_buffer_witness :
  fst (literal_match_ovector "xyz" "abc" 0 (m_ovector afterHelloWorld)) = -1 /\
  snd (performMatch_ovector literal_captures literal_match_ovector afterHelloWorld "xyz"
         "abc" "abc" 0 (Some (other_ptr 0)))
    = Some m_ovector_data /\
  m_cachedResult
    (snd (fst (performMatch_ovector literal_captures literal_match_ovector afterHelloWorld
                 "xyz" "abc" "abc" 0 (Some (other_ptr 0)))))
    = m_cachedResult afterHelloWorld.
Proof.
  split; [reflexivity|].
  destruct (@performMatch_ovector_always_exposes_buffer string literal_captures
              literal_match_ovector afterHelloWorld "xyz" "abc" "abc" 0 (other_ptr 0))
    as (Hslot & _ & Hfail).
  destruct (Hfail eq_refl) as (_ & Hcache & _).
  split; [exact Hslot | exact Hcache].
Defined.

(* ------------------------------------------------------------------ *)
(** ** The multiline flag *)

Section MultilineProperties.

Variable RegExp : Type.
Variable RegExp_captures : RegExp -> JSString -> MatchResult -> list Z.
Variable RegExp_match_ovector :
  RegExp -> WTF_String -> Z -> list Z -> Z * list Z.
Variable RegExp_match : RegExp -> WTF_String -> Z -> MatchResult.
Implicit Types ctor : RegExpConstructor RegExp.

(** X2.  Matching never writes the flag: [multiline()] is the same after
    either overload of [performMatch], whatever the engine reported, and
    after [recordMatch]; and setting the flag before a [performMatch] or
    after it gives the same result and the same state. *)
Theorem dispatch_keeps_multiline
    (v : Variant) ctor (regExp : RegExp) (string : JSString)
    (input : WTF_String) (startOffset : Z) (result : MatchResult)
    (b : bool) :
  multiline (snd (performMatch_via RegExp_captures RegExp_match_ovector RegExp_match v ctor
                    regExp string input startOffset)) = multiline ctor /\
  multiline (recordMatch RegExp_captures ctor regExp string result) = multiline ctor /\
  performMatch_via RegExp_captures RegExp_match_ovector RegExp_match v (setMultiline ctor b)
      regExp string input startOffset
    = (fst (performMatch_via RegExp_captures RegExp_match_ovector RegExp_match v ctor
              regExp string input startOffset),
       setMultiline
         (snd (performMatch_via RegExp_captures RegExp_match_ovector RegExp_match v ctor
                 regExp string input startOffset)) b).
Proof.
  destruct v as [|ovector]; cbn [performMatch_via].
  - unfold performMatch.
    destruct (matched (RegExp_match regExp input startOffset));
      repeat split; reflexivity.
  - unfold performMatch_ovector; cbn [setMultiline m_ovector].
    destruct (RegExp_match_ovector regExp input startOffset (m_ovector ctor))
      as [position filled].
    destruct (position =? -1)%Z; [repeat split; reflexivity|].
    cbn [m_ovector].
    destruct (Vector_at filled 1); repeat split; reflexivity.
Qed.

End MultilineProperties.

(* ------------------------------------------------------------------ *)
(** ** More on the match dispatcher *)

Section DispatchProperties.

Variable RegExp : Type.
Variable RegExp_captures : RegExp -> JSString -> MatchResult -> list Z.
Variable RegExp_match_ovector :
  RegExp -> WTF_String -> Z -> list Z -> Z * list Z.
Variable RegExp_match : RegExp -> WTF_String -> Z -> MatchResult.
Implicit Types ctor : RegExpConstructor RegExp.

(** X3.  [ovector] is written, never read: the result and the state after
    the offsets-visible [performMatch] are the same for any two values
    of it, and through a null [ovector] nothing is stored. *)
Theorem performMatch_ovector_only_writes_ovector
    ctor (regExp : RegExp) (string : JSString) (input : WTF_String)
    (startOffset : Z) (ovector ovector' : option IntPtr) :
  fst (performMatch_ovector RegExp_captures RegExp_match_ovector ctor regExp string input
         startOffset ovector)
    = fst (performMatch_ovector RegExp_captures RegExp_match_ovector ctor regExp string
             input startOffset ovector') /\
  snd (performMatch_ovector RegExp_captures RegExp_match_ovector ctor regExp string input
         startOffset None) = None.
Proof.
  unfold performMatch_ovector.
  destruct (RegExp_match_ovector regExp input startOffset (m_ovector ctor))
    as [position filled].
  destruct (position =? -1)%Z; [split; reflexivity|].
  cbn [m_ovector].
  destruct (Vector_at filled 1); split; reflexivity.
Qed.

(** X4.  On a match, [performMatch] leaves the constructor as [recordMatch]
    of the result returned would: the plain overload from the state
    before the call, the offsets-visible overload from that state with
    the buffer the engine filled. *)
Theorem performMatch_is_match_then_recordMatch
    ctor (regExp : RegExp) (string : JSString) (input : WTF_String)
    (startOffset : Z) (ovector : option IntPtr) :
  (matched (RegExp_match regExp input startOffset) = true ->
   performMatch RegExp_captures RegExp_match ctor regExp string input startOffset
     = (RegExp_match regExp input startOffset,
        recordMatch RegExp_captures ctor regExp string
          (RegExp_match regExp input startOffset))) /\
  (forall (position e : Z) (filled : list Z),
      RegExp_match_ovector regExp input startOffset (m_ovector ctor)
        = (position, filled) ->
      position <> -1 ->
      Vector_at filled 1 = Some e ->
      fst (performMatch_ovector RegExp_captures RegExp_match_ovector ctor regExp string
             input startOffset ovector)
        = (Returned (MatchResult_span (size_t_of_int position)
                       (size_t_of_int e)),
           recordMatch RegExp_captures
             {| m_cachedResult := m_cachedResult ctor;
                m_multiline := m_multiline ctor;
                m_ovector := filled |}
             regExp string
             (MatchResult_span (size_t_of_int position) (size_t_of_int e)))).
Proof.
  split.
  - intros Hm; unfold performMatch; rewrite Hm; reflexivity.
  - intros position e filled Heng Hpos He.
    unfold performMatch_ovector; rewrite Heng.
    apply Z.eqb_neq in Hpos; rewrite Hpos.
    cbn [m_ovector]; rewrite He; reflexivity.
Qed.

(** X5.  When the engine returns a position [0 <= position] and the filled
    vector has an [int] at entry 1 that is not before it, which is what
    the code asserts, the offsets-visible [performMatch] returns exactly
    the span [[position, m_ovector[1])]: the conversions to [size_t]
    change nothing, and the span is well formed (its end is not before
    its start). *)
Theorem performMatch_ovector_returns_engine_span
    ctor (regExp : RegExp) (string : JSString) (input : WTF_String)
    (startOffset : Z) (ovector : option IntPtr)
    (position e : Z) (filled : list Z) :
  RegExp_match_ovector regExp input startOffset (m_ovector ctor)
    = (position, filled) ->
  position <> -1 ->
  0 <= position ->
  Vector_at filled 1 = Some e ->
  position <= e ->
  is_int e ->
  exists result : MatchResult,
    fst (fst (performMatch_ovector RegExp_captures RegExp_match_ovector ctor regExp string
                input startOffset ovector)) = Returned result /\
    result = MatchResult_span position e /\
    0 <= start result <= end_ result.
Proof.
  intros Heng Hpos Hnonneg He Hle [Hlo Hhi].
  exists (MatchResult_span position e).
  unfold performMatch_ovector; rewrite Heng.
  apply Z.eqb_neq in Hpos; rewrite Hpos.
  cbn [m_ovector]; rewrite He; cbn [fst].
  unfold size_t_of_int; rewrite !Z.mod_small by lia.
  repeat split; simpl; lia.
Qed.

(** X6.  When the two overloads of the engine agree on a search, the two
    overloads of [performMatch] return the same result, and leave the
    same last match, subject, regex and explicit input in the cached
    result and the same flag; only the buffer can differ. *)
Theorem performMatch_overloads_agree
    ctor (regExp : RegExp) (string : JSString) (input : WTF_String)
    (startOffset : Z) (ovector : option IntPtr) :
  enginesAgree RegExp_match_ovector RegExp_match regExp input startOffset
    (m_ovector ctor) ->
  let plain :=
    performMatch RegExp_captures RegExp_match ctor regExp string input startOffset in
  let visible :=
    fst (performMatch_ovector RegExp_captures RegExp_match_ovector ctor regExp string input
           startOffset ovector) in
  fst visible = Returned (fst plain) /\
  lastMatch (m_cachedResult (snd visible))
    = lastMatch (m_cachedResult (snd plain)) /\
  subject (m_cachedResult (snd visible))
    = subject (m_cachedResult (snd plain)) /\
  regex (m_cachedResult (snd visible))
    = regex (m_cachedResult (snd plain)) /\
  explicitInput (m_cachedResult (snd visible))
    = explicitInput (m_cachedResult (snd plain)) /\
  multiline (snd visible) = multiline (snd plain).
Proof.
  unfold enginesAgree, performMatch, performMatch_ovector.
  destruct (RegExp_match_ovector regExp input startOffset (m_ovector ctor))
    as [position filled]; cbn [fst snd].
  destruct (position =? -1)%Z.
  - intros ->; cbn; repeat split; reflexivity.
  - intros (e & He & ->); cbn [m_ovector]; rewrite He; cbn.
    repeat split; reflexivity.
Qed.

Local Abbreviation runAll :=
  (performMatches RegExp_captures RegExp_match_ovector RegExp_match).

Lemma performMatches_all_no_match ctor (calls : list (Attempt RegExp)) :
  allNoMatch RegExp_captures RegExp_match_ovector RegExp_match ctor calls = true ->
  exists ctor',
    runAll ctor calls = Returned ctor' /\
    m_cachedResult ctor' = m_cachedResult ctor /\
    m_multiline ctor' = m_multiline ctor.
Proof.
  revert ctor; induction calls as [|a rest IH]; intros ctor Hall.
  - exists ctor; repeat split.
  - cbn [allNoMatch] in Hall; apply andb_prop in Hall as [Hfail Hrest].
    destruct (IH _ Hrest) as (ctor' & Hrun & Hcache & Hflag).
    assert (Hstep :
      exists r, fst (attempt RegExp_captures RegExp_match_ovector RegExp_match a ctor)
                = Returned r /\
        m_cachedResult (snd (attempt RegExp_captures RegExp_match_ovector RegExp_match a ctor))
          = m_cachedResult ctor /\
        m_multiline (snd (attempt RegExp_captures RegExp_match_ovector RegExp_match a ctor))
          = m_multiline ctor).
    { unfold attempt in *.
      destruct (attemptVariant a) as [|ovector];
        cbn [performMatch_via noMatch] in *.
      - unfold performMatch.
        destruct (matched (RegExp_match (attemptRegExp a) (attemptInput a)
                             (attemptStartOffset a))); [discriminate|].
        eexists; repeat split.
      - unfold performMatch_ovector.
        destruct (RegExp_match_ovector (attemptRegExp a) (attemptInput a)
                    (attemptStartOffset a) (m_ovector ctor))
          as [position filled]; cbn [fst] in Hfail.
        rewrite Hfail; eexists; repeat split. }
    destruct Hstep as (r & Hr & Hc & Hf).
    exists ctor'; cbn [performMatches]; rewrite Hr.
    repeat split; [exact Hrun | congruence | congruence].
Qed.

(** X7.  A run of [performMatch] calls, through either overload, at each of
    which the engine reports no match, returns with the cached result
    and the flag it started with: the six accessors answer as before
    the run, however many searches failed since the last match. *)
Theorem failed_attempts_keep_cache
    ctor (calls : list (Attempt RegExp)) :
  allNoMatch RegExp_captures RegExp_match_ovector RegExp_match ctor calls = true ->
  exists ctor',
    performMatches RegExp_captures RegExp_match_ovector RegExp_match ctor calls
      = Returned ctor' /\
    m_cachedResult ctor' = m_cachedResult ctor /\
    multiline ctor' = multiline ctor /\
    sameObservations ctor' ctor.
Proof.
  intros Hall.
  destruct (performMatches_all_no_match ctor calls Hall)
    as (ctor' & Hrun & Hcache & Hflag).
  exists ctor'.
  split; [exact Hrun|].
  split; [exact Hcache|].
  split; [exact Hflag|].
  apply same_cache_sameObservations; exact Hcache.
Qed.

End DispatchProperties.

(* ------------------------------------------------------------------ *)
(** ** More on isRegExp *)

Section IsRegExpConverse.

Variables JSValue JSObject Exception VM : Type.
Variable host : Host JSValue JSObject Exception VM.

(** X8.  [isRegExp] raises nothing of its own: an exception pending when it
    returns was pending in the caller's VM (for a value that is not an
    object, which is returned at once), or was raised by the lookup of
    the match symbol, or by the conversion to boolean of the value
    found. *)
Theorem isRegExp_exception_comes_from_host
    (vm : VM) (value : JSValue) (e : Exception) :
  exception host (snd (isRegExp host vm value)) = Some e ->
  let looked := get_matchSymbol host (asObject host value) vm in
  (isObject host value = false /\ exception host vm = Some e) \/
  (isObject host value = true /\ exception host (snd looked) = Some e) \/
  (isObject host value = true /\
   exception host (snd looked) = None /\
   isUndefined host (fst looked) = false /\
   exception host (snd (toBoolean host (fst looked) (snd looked))) = Some e).
Proof.
  unfold isRegExp; cbv zeta.
  destruct (isObject host value); cbn [negb].
  - destruct (get_matchSymbol host (asObject host value) vm)
      as [matchValue vm1]; cbn [fst snd].
    destruct (exception host vm1) as [e1|] eqn:Hlook.
    + cbn [snd]; intros He; right; left; split; [reflexivity | congruence].
    + destruct (isUndefined host matchValue); cbn [negb].
      * cbn [snd]; congruence.
      * intros He; right; right; repeat split; assumption.
  - cbn [snd]; intros He; left; split; [reflexivity | exact He].
Qed.

(** X9.  [isRegExp] answers [true] only for an object whose lookup of the
    match symbol raised nothing, and then only because the value found
    converts to [true], or because the value found is [undefined] and
    the object is natively a regexp: never for a primitive, never after
    a lookup that raised. *)
Theorem isRegExp_true_only_if (vm : VM) (value : JSValue) :
  fst (isRegExp host vm value) = true ->
  let looked := get_matchSymbol host (asObject host value) vm in
  isObject host value = true /\
  exception host (snd looked) = None /\
  ((isUndefined host (fst looked) = false /\
    fst (toBoolean host (fst looked) (snd looked)) = true) \/
   (isUndefined host (fst looked) = true /\
    inherits_RegExpObject host (asObject host value) (snd looked) = true)).
Proof.
  unfold isRegExp; cbv zeta.
  destruct (isObject host value); cbn [negb]; [|discriminate].
  destruct (get_matchSymbol host (asObject host value) vm)
    as [matchValue vm1]; cbn [fst snd].
  destruct (exception host vm1); [discriminate|].
  destruct (isUndefined host matchValue); cbn [negb fst]; intros Htrue.
  - repeat split; right; split; [reflexivity | exact Htrue].
  - repeat split; left; split; [reflexivity | exact Htrue].
Qed.

End IsRegExpConverse.

(* ------------------------------------------------------------------ *)
(** ** These properties at concrete inputs *)

Lemma performMatch_ovector_returns_engine_span_witness :
  literal_match_ovector "o w" "hello world" 0 (m_ovector fresh)
    = (4, [4; 7]) /\
  exists result : MatchResult,
    fst (fst (performMatch_ovector literal_captures literal_match_ovector fresh "o w"
                "hello world" "hello world" 0 None)) = Returned result /\
    result = MatchResult_span 4 7 /\
    0 <= start result <= end_ result.
Proof.
  split; [reflexivity|].
  apply (@performMatch_ovector_returns_engine_span string literal_captures
              literal_match_ovector fresh "o w" "hello world" "hello world" 0
           None 4 7 [4; 7]).
  - reflexivity.
  - discriminate.
  - discriminate.
  - reflexivity.
  - discriminate.
  - split; [discriminate | reflexivity].
Defined.

Lemma performMatch_overloads_agree_witness :
  enginesAgree literal_match_ovector literal_match "o w" "hello world" 0
    (m_ovector fresh) /\
  fst (fst (performMatch_ovector literal_captures literal_match_ovector fresh "o w"
              "hello world" "hello world" 0 None))
    = Returned (fst (performMatch literal_captures literal_match fresh "o w" "hello world"
                       "hello world" 0)).
Proof.
  assert (Hagree : enginesAgree literal_match_ovector literal_match "o w"
                     "hello world" 0 (m_ovector fresh)).
  { exists 7; split; reflexivity. }
  split; [exact Hagree|].
  destruct (@performMatch_overloads_agree string literal_captures
              literal_match_ovector
              literal_match fresh "o w" "hello world" "hello world" 0 None
              Hagree) as (Hsame & _).
  exact Hsame.
Defined.

(** After ["o w"] was found in ["hello world"], three searches that find
    nothing. *)
Lemma failed_attempts_keep_cache_witness :
  allNoMatch literal_captures literal_match_ovector literal_match afterHelloWorld threeMisses
    = true /\
  exists ctor',
    performMatches literal_captures literal_match_ovector literal_match afterHelloWorld
      threeMisses = Returned ctor' /\
    m_cachedResult ctor' = m_cachedResult afterHelloWorld /\
    multiline ctor' = multiline afterHelloWorld /\
    sameObservations ctor' afterHelloWorld.
Proof.
  split; [reflexivity|].
  apply (@failed_attempts_keep_cache string literal_captures
              literal_match_ovector
           literal_match afterHelloWorld threeMisses).
  reflexivity.
Defined.

Lemma isRegExp_exception_comes_from_host_witness :
  exception toyHost (snd (isRegExp toyHost None throwingRegExp))
    = Some "getter threw" /\
  exception toyHost
    (snd (get_matchSymbol toyHost (asObject toyHost throwingRegExp) None))
    = Some "getter threw".
Proof.
  split; [reflexivity|].
  destruct (@isRegExp_exception_comes_from_host ToyValue ToyObject string
              ToyVM toyHost None throwingRegExp "getter threw" eq_refl)
    as [[Hprimitive _] | [[_ Hlookup] | (_ & Hnone & _)]].
  - discriminate Hprimitive.
  - exact Hlookup.
  - discriminate Hnone.
Defined.

Lemma isRegExp_true_only_if_witness :
  fst (isRegExp toyHost None optedInObject) = true /\
  isObject toyHost optedInObject = true /\
  exception toyHost
    (snd (get_matchSymbol toyHost (asObject toyHost optedInObject) None))
    = None.
Proof.
  split; [reflexivity|].
  destruct (@isRegExp_true_only_if ToyValue ToyObject string ToyVM toyHost
              None optedInObject eq_refl) as (Hobject & Hlookup & _).
  split; [exact Hobject | exact Hlookup].
Defined.
